(** * The Logged and Maybe combinators of [example.ts]

    A shallow embedding of the script: the two wrapper types, their
    [return] and [bind] functions, the sample step functions, the two
    demonstration chains and their [reduce] forms, followed by the
    properties the specification states about them.

    - A TypeScript [number] is an IEEE 754 binary64 value, that is a
      primitive [float]; [*], [/], [+] and [!==] on numbers are the float
      operations.
    - A JavaScript function may have side effects.  Calls are therefore
      modelled in state-passing style over an arbitrary world [W]: a step
      function maps its argument and the world before the call to its
      result and the world after it.  A function that is never called
      leaves the world as it was, whatever its effect would have been.
    - [Maybe<T>] is the untagged union [T | undefined]. *)

From Stdlib Require Import ZArith List String Ascii Bool Lia.
From Stdlib Require Import PrimFloat SpecFloat FloatOps DecimalString.
Import ListNotations.

Set Implicit Arguments.

(** ** Side effects: state passing over a world [W] *)

Definition Js (W A : Type) : Type := W -> A * W.

Definition ret {W A : Type} (a : A) : Js W A := fun w => (a, w).

Definition bind {W A B : Type} (m : Js W A) (k : A -> Js W B) : Js W B :=
  fun w => let (a, w') := m w in k a w'.

Notation "x <- m ;; k" := (bind m (fun x => k))
  (at level 61, m at next level, right associativity).

(** An arrow function whose body has no side effect, such as [square]. *)
Definition arrow {W A B : Type} (f : A -> B) : A -> Js W B :=
  fun x => ret (f x).

(** A stand-in that counts its invocations: the world is the counter. *)
Definition counting {A B : Type} (f : A -> B) : A -> Js nat B :=
  fun x n => (f x, S n).

(** Running a computation of the script itself, which has no state of its
    own. *)
Definition run {A : Type} (m : Js unit A) : A := fst (m tt).

(** [Array.prototype.reduce(callbackfn, initialValue)]: the accumulator
    starts at [initialValue] and [callbackfn] is called on it and on each
    element in index order. *)
Fixpoint reduce {W A B : Type} (array : list A) (callbackfn : B -> A -> Js W B)
    (initialValue : B) : Js W B :=
  match array with
  | [] => ret initialValue
  | currentValue :: rest =>
      accumulator <- callbackfn initialValue currentValue ;;
      reduce rest callbackfn accumulator
  end.

(** Manual nesting [chain(...chain(chain(init, f1), f2)..., fn)], read off
    the expression from the outside in: the outermost call applies the
    last step to the value of the nested expression inside it, whose
    evaluation comes first.  [nestedFrom] takes the steps last first. *)
Fixpoint nestedFrom {W A B : Type} (chain : B -> A -> Js W B)
    (outermostFirst : list A) (init : B) : Js W B :=
  match outermostFirst with
  | [] => ret init
  | fn :: inner =>
      wrapped <- nestedFrom chain inner init ;;
      chain wrapped fn
  end.

Definition nested {W A B : Type} (chain : B -> A -> Js W B) (steps : list A)
    (init : B) : Js W B :=
  nestedFrom chain (rev steps) init.

(** ** Numbers *)

Module Number.

Abbreviation number := float (only parsing).

(** [a !== b] on two numbers: IEEE comparison, so [-0 !== 0] is [false]
    and [NaN !== 0] is [true]. *)
Definition strictNotEqual (a b : number) : bool := negb (PrimFloat.eqb a b).

(** The integer a positive finite number denotes, when it denotes one
    below 2^53; in that range the decimal expansion of the integer is
    the shortest digit string that reads back as the number. *)
Definition safeInteger (x : number) : option N :=
  match Prim2SF x with
  | S754_finite false m e =>
      let z := (if 0 <=? e then Zpos m * 2 ^ e else Zpos m / 2 ^ (- e))%Z in
      let exact := (if 0 <=? e then true else Zpos m mod 2 ^ (- e) =? 0)%Z in
      if (exact && (z <? 2 ^ 53)%Z)%bool then Some (Z.to_N z) else None
  | _ => None
  end.

Section ToString.

(** The digit generation of [Number::toString] for the finite values
    that are not integers below 2^53 (fractions, exponents); the
    script never prints one. *)
Variable shortest : number -> string.

Definition digits (x : number) : string :=
  if is_infinity x then "Infinity"%string
  else match safeInteger x with
       | Some n => NilEmpty.string_of_uint (N.to_uint n)
       | None => shortest x
       end.

(** [Number::toString(x)] in radix 10, as a template literal applies
    it to a number. *)
Definition toString (x : number) : string :=
  if is_nan x then "NaN"%string
  else if PrimFloat.eqb x 0%float then "0"%string
  else if PrimFloat.ltb x 0%float then ("-" ++ digits (- x)%float)%string
  else digits x.

End ToString.

End Number.

Import Number.

(** ** The Logged wrapper *)

Record Logged (T : Type) : Type := { value : T; logs : list string }.

Section LoggedCombinator.

Variable W : Type.
Variable T : Type.

Definition returnLogged (value : T) : Logged T :=
  {| value := value; logs := [] |}.

Definition bindLogged (wrapped : Logged T) (fn : T -> Js W (Logged T))
    : Js W (Logged T) :=
  next <- fn (value wrapped) ;;
  ret {| value := value next; logs := logs wrapped ++ logs next |}.

End LoggedCombinator.

Arguments returnLogged {T} value.
Arguments bindLogged {W T} wrapped fn.

Section LoggedSteps.

Variable shortest : number -> string.

Definition square (x : number) : Logged number :=
  {| value := (x * x)%float;
     logs := [("squared " ++ toString shortest x)%string] |}.

Definition double (x : number) : Logged number :=
  {| value := (x * 2)%float;
     logs := [("doubled " ++ toString shortest x)%string] |}.

Definition y : Logged number :=
  run (wrapped <- bindLogged (returnLogged 5%float) (arrow square) ;;
       bindLogged wrapped (arrow double)).

Definition y2 : Logged number :=
  run (reduce [arrow square; arrow double]
         (fun loggedX fn => bindLogged loggedX fn)
         (returnLogged 5%float)).

End LoggedSteps.

(** ** Run-time values

    The values a generic [T] can stand for at run time, as far as the
    script builds them: the primitives and the [{ value, logs }] objects.
    This is the payload type of the combinators when [T] is [unknown]. *)

#[warnings="-register-all"]
Inductive JsValue : Type :=
| JsUndefined
| JsNull
| JsBoolean (b : bool)
| JsNumber (x : number)
| JsString (s : string)
| JsObject (o : Logged JsValue).

Definition isUndefined (v : JsValue) : bool :=
  match v with JsUndefined => true | _ => false end.

(** [returnLogged] at [T = unknown]: its result is again a value. *)
Definition returnLoggedValue (v : JsValue) : JsValue := JsObject (returnLogged v).

(** How many [{ value, logs }] wrappers surround the innermost value. *)
Fixpoint layers (v : JsValue) : nat :=
  match v with
  | JsObject o => S (layers (value o))
  | _ => 0
  end.

(** ** The Maybe wrapper

    [type Maybe<T> = T | undefined].  The union is untagged: its members
    are the members of [T] and [undefined], and when [undefined] already
    belongs to [T] the union adds nothing.  A payload type therefore comes
    with the carrier of its union, the value [undefined] in it, the
    inclusion of [T] (no code at run time) and the narrowing that the test
    [wrapped !== undefined] performs. *)

Class Undefinable (T : Type) : Type := {
  Maybe : Type;
  undefined : Maybe;
  include : T -> Maybe;
  narrow : Maybe -> option T;
  narrow_undefined : narrow undefined = None;
  narrow_None : forall m, narrow m = None -> m = undefined;
  narrow_Some : forall m v, narrow m = Some v -> m = include v;
  narrow_include : forall v, include v <> undefined -> narrow (include v) = Some v
}.

Arguments Maybe T {_}.
Arguments undefined {T _}.

(** [T | undefined] for a [T] that does not contain [undefined]. *)
Inductive OrUndefined (T : Type) : Type :=
| Undefined
| Defined (v : T).

Arguments Undefined {T}.

Definition narrowOrUndefined {T : Type} (m : OrUndefined T) : option T :=
  match m with Undefined => None | Defined v => Some v end.

Lemma narrowOrUndefined_None (T : Type) (m : OrUndefined T) :
  narrowOrUndefined m = None -> m = Undefined.
Proof. destruct m; [reflexivity | discriminate]. Qed.

Lemma narrowOrUndefined_Some (T : Type) (m : OrUndefined T) (v : T) :
  narrowOrUndefined m = Some v -> m = Defined v.
Proof. destruct m; [discriminate | intros [= ->]; reflexivity]. Qed.

Definition disjoint (T : Type) : Undefinable T := {|
  Maybe := OrUndefined T;
  undefined := Undefined;
  include := @Defined T;
  narrow := narrowOrUndefined;
  narrow_undefined := eq_refl;
  narrow_None := @narrowOrUndefined_None T;
  narrow_Some := @narrowOrUndefined_Some T;
  narrow_include := fun v _ => eq_refl |}.

#[export] Instance Undefinable_number : Undefinable number := disjoint number.
#[export] Instance Undefinable_string : Undefinable string := disjoint string.
#[export] Instance Undefinable_boolean : Undefinable bool := disjoint bool.

(** [unknown | undefined] is [unknown]: [undefined] is already a value. *)
Definition narrowValue (v : JsValue) : option JsValue :=
  if isUndefined v then None else Some v.

Lemma narrowValue_None (m : JsValue) : narrowValue m = None -> m = JsUndefined.
Proof. destruct m; try discriminate; reflexivity. Qed.

Lemma narrowValue_Some (m v : JsValue) : narrowValue m = Some v -> m = v.
Proof. destruct m; try discriminate; intros [= <-]; reflexivity. Qed.

Lemma narrowValue_include (v : JsValue) :
  v <> JsUndefined -> narrowValue v = Some v.
Proof. destruct v; try reflexivity; intros H; contradiction H; reflexivity. Qed.

#[export] Instance Undefinable_unknown : Undefinable JsValue := {|
  Maybe := JsValue;
  undefined := JsUndefined;
  include := fun v => v;
  narrow := narrowValue;
  narrow_undefined := eq_refl;
  narrow_None := narrowValue_None;
  narrow_Some := narrowValue_Some;
  narrow_include := narrowValue_include |}.

(** [(T | undefined) | undefined] is [T | undefined]. *)
Section MaybeOfMaybe.

Variable T : Type.
Context {U : Undefinable T}.

Definition narrowMaybe (m : Maybe T) : option (Maybe T) :=
  match narrow m with None => None | Some _ => Some m end.

Lemma narrowMaybe_undefined : narrowMaybe undefined = None.
Proof. unfold narrowMaybe; rewrite narrow_undefined; reflexivity. Qed.

Lemma narrowMaybe_None (m : Maybe T) : narrowMaybe m = None -> m = undefined.
Proof.
  unfold narrowMaybe; destruct (narrow m) eqn:E; [discriminate | intros _].
  apply narrow_None; exact E.
Qed.

Lemma narrowMaybe_Some (m v : Maybe T) : narrowMaybe m = Some v -> m = v.
Proof.
  unfold narrowMaybe; destruct (narrow m); [intros [= <-]; reflexivity | discriminate].
Qed.

Lemma narrowMaybe_include (v : Maybe T) :
  v <> undefined -> narrowMaybe v = Some v.
Proof.
  unfold narrowMaybe; intros Hv; destruct (narrow v) eqn:E; [reflexivity |].
  apply narrow_None in E; contradiction.
Qed.

Definition Undefinable_Maybe : Undefinable (Maybe T) := {|
  Maybe := Maybe T;
  undefined := undefined;
  include := fun m => m;
  narrow := narrowMaybe;
  narrow_undefined := narrowMaybe_undefined;
  narrow_None := narrowMaybe_None;
  narrow_Some := narrowMaybe_Some;
  narrow_include := narrowMaybe_include |}.

End MaybeOfMaybe.

Arguments Undefinable_Maybe T {U}.

Section MaybeCombinator.

Variable W : Type.
Variable T : Type.
Context {U : Undefinable T}.

Definition returnMaybe (value : T) : Maybe T := include value.

Definition bindMaybe (wrapped : Maybe T) (fn : T -> Js W (Maybe T))
    : Js W (Maybe T) :=
  match narrow wrapped with
  | Some defined => fn defined
  | None => ret undefined
  end.

End MaybeCombinator.

Arguments returnMaybe {T U} value.
Arguments bindMaybe {W T U} wrapped fn.

Definition divide (divisor : number) : number -> Maybe number :=
  fun x =>
    if strictNotEqual divisor 0%float
    then include (x / divisor)%float
    else undefined.

Definition whatever (x : number) : Maybe number := include (x + 42)%float.

Definition z : Maybe number :=
  run (wrapped <- bindMaybe (returnMaybe 10%float) (arrow (divide 0%float)) ;;
       bindMaybe wrapped (arrow whatever)).

Definition z2 : Maybe number :=
  run (reduce [arrow (divide 0%float); arrow whatever]
         (fun maybeX fn => bindMaybe maybeX fn)
         (returnMaybe 10%float)).

(** The same two chains with the divisor 5, as the specification's second
    scenario has them. *)
Definition zBy (divisor : number) : Maybe number :=
  run (wrapped <- bindMaybe (returnMaybe 10%float) (arrow (divide divisor)) ;;
       bindMaybe wrapped (arrow whatever)).

(** * Properties *)

(** ** Sequencing and [reduce] *)

Lemma bind_ret_r (W A : Type) (m : Js W A) (w : W) :
  (a <- m ;; ret a) w = m w.
Proof. unfold bind, ret; destruct (m w); reflexivity. Qed.

Lemma bind_ext (W A B : Type) (m m' : Js W A) (k k' : A -> Js W B) (w : W) :
  m w = m' w -> (forall a w', k a w' = k' a w') -> bind m k w = bind m' k' w.
Proof.
  intros Hm Hk; unfold bind; rewrite Hm; destruct (m' w); apply Hk.
Qed.

Lemma reduce_app (W A B : Type) (cb : B -> A -> Js W B) (l1 l2 : list A) :
  forall (init : B) (w : W),
    reduce (l1 ++ l2) cb init w = (acc <- reduce l1 cb init ;; reduce l2 cb acc) w.
Proof.
  induction l1 as [| f l1 IH]; intros init w; simpl.
  - reflexivity.
  - unfold bind; destruct (cb init f w) as [acc w1]; rewrite IH; reflexivity.
Qed.

Lemma reduce_nested (W A B : Type) (chain : B -> A -> Js W B) (steps : list A) :
  forall (init : B) (w : W),
    reduce steps chain init w = nested chain steps init w.
Proof.
  unfold nested.
  induction steps as [| fn steps IH] using rev_ind; intros init w.
  - reflexivity.
  - rewrite reduce_app, rev_app_distr; simpl.
    apply bind_ext; [apply IH |].
    intros acc w'; apply bind_ret_r.
Qed.

Example nested_three (W A B : Type) (chain : B -> A -> Js W B) (f1 f2 f3 : A)
    (init : B) :
  nested chain [f1; f2; f3] init
  = (c <- (b <- (a <- ret init ;; chain a f1) ;; chain b f2) ;; chain c f3).
Proof. reflexivity. Qed.

(** ** The Logged combinator *)

Lemma Logged_eta (T : Type) (c : Logged T) :
  {| value := value c; logs := logs c |} = c.
Proof. destruct c; reflexivity. Qed.

Lemma bindLogged_run (W T : Type) (c : Logged T) (f : T -> Js W (Logged T))
    (w : W) :
  bindLogged c f w
  = ({| value := value (fst (f (value c) w));
        logs := logs c ++ logs (fst (f (value c) w)) |},
     snd (f (value c) w)).
Proof.
  unfold bindLogged, bind, ret; destruct (f (value c) w); reflexivity.
Qed.

(** C5.  [bindLogged(c, f)] calls [f] on [c.value]; the result has the
    value of what [f] returned and the logs of [c] followed by the logs of
    what [f] returned, and the world is the one [f] left.  Two chained
    steps that log ["a"] and then ["b"] give the log [["a"; "b"]]. *)
Theorem bindLogged_value_and_logs :
  (forall (W T : Type) (c : Logged T) (f : T -> Js W (Logged T)) (w : W),
      value (fst (bindLogged c f w)) = value (fst (f (value c) w))
      /\ logs (fst (bindLogged c f w)) = logs c ++ logs (fst (f (value c) w))
      /\ snd (bindLogged c f w) = snd (f (value c) w))
  /\ (forall (W T : Type) (ga gb : T -> T) (v : T) (w : W),
         let stepA := arrow (fun x => {| value := ga x; logs := ["a"%string] |}) in
         let stepB := arrow (fun x => {| value := gb x; logs := ["b"%string] |}) in
         (c <- bindLogged (returnLogged v) stepA ;; bindLogged c stepB) w
         = ({| value := gb (ga v); logs := ["a"%string; "b"%string] |}, w)).
Proof.
  split.
  - intros W T c f w; rewrite bindLogged_run; simpl; repeat split.
  - intros W T ga gb v w; reflexivity.
Qed.

(** C10.  Left identity: [bindLogged(returnLogged(v), f)] is [f(v)], with
    the same value, the same logs and the same effect. *)
Theorem bindLogged_returnLogged (W T : Type) (v : T)
    (f : T -> Js W (Logged T)) (w : W) :
  bindLogged (returnLogged v) f w = f v w.
Proof.
  rewrite bindLogged_run; simpl.
  destruct (f v w) as [next w']; simpl; rewrite Logged_eta; reflexivity.
Qed.

(** C8.  The demonstration chain evaluates to value 50 with the logs
    ["squared 5"] and ["doubled 25"]; each sample step logs the number it
    was given, not the number it returns. *)
Theorem y_evaluates (shortest : number -> string) :
  y shortest
  = {| value := 50%float; logs := ["squared 5"%string; "doubled 25"%string] |}
  /\ (forall x : number,
         square shortest x
         = {| value := (x * x)%float;
              logs := [("squared " ++ toString shortest x)%string] |})
  /\ (forall x : number,
         double shortest x
         = {| value := (x * 2)%float;
              logs := [("doubled " ++ toString shortest x)%string] |})
  /\ double shortest 25%float
     = {| value := 50%float; logs := ["doubled 25"%string] |}
  /\ square shortest 5%float
     = {| value := 25%float; logs := ["squared 5"%string] |}.
Proof. repeat split; reflexivity. Qed.

(** ** The Maybe combinator *)

Section MaybeFacts.

Variable W : Type.
Variable T : Type.
Context {U : Undefinable T}.

Lemma bindMaybe_undefined (fn : T -> Js W (Maybe T)) (w : W) :
  bindMaybe undefined fn w = (undefined, w).
Proof. unfold bindMaybe; rewrite narrow_undefined; reflexivity. Qed.

Lemma bindMaybe_narrowed (wrapped : Maybe T) (v : T)
    (fn : T -> Js W (Maybe T)) (w : W) :
  narrow wrapped = Some v -> bindMaybe wrapped fn w = fn v w.
Proof. intros E; unfold bindMaybe; rewrite E; reflexivity. Qed.

Lemma reduce_bindMaybe_undefined (steps : list (T -> Js W (Maybe T))) (w : W) :
  reduce steps (fun maybeX fn => bindMaybe maybeX fn) undefined w
  = (undefined, w).
Proof.
  induction steps as [| fn rest IH]; simpl.
  - reflexivity.
  - unfold bind; rewrite bindMaybe_undefined; exact IH.
Qed.

End MaybeFacts.

(** C6.  On the absent container [bindMaybe] returns absent and does not
    call the step: whatever the step would do, the world is untouched.  On
    a present container holding [v] it is exactly the call [f(v)], whose
    result may be present or absent. *)
Theorem bindMaybe_short_circuit (W T : Type) (U : Undefinable T)
    (f : T -> Js W (Maybe T)) (w : W) :
  bindMaybe undefined f w = (undefined, w)
  /\ (forall v : T,
         include v <> undefined -> bindMaybe (returnMaybe v) f w = f v w)
  /\ (forall (wrapped : Maybe T) (v : T),
         narrow wrapped = Some v -> bindMaybe wrapped f w = f v w).
Proof.
  split; [apply bindMaybe_undefined | split].
  - intros v Hv; apply bindMaybe_narrowed, narrow_include, Hv.
  - intros wrapped v E; apply bindMaybe_narrowed, E.
Qed.

Lemma bindMaybe_short_circuit_witness :
  bindMaybe (undefined : Maybe number) (counting whatever) 0 = (Undefined, 0)
  /\ bindMaybe (returnMaybe 2%float) (counting whatever) 0
     = (Defined 44%float, 1)
  /\ bindMaybe (returnMaybe 2%float) (counting (divide 0%float)) 0
     = (Undefined, 1).
Proof.
  destruct (bindMaybe_short_circuit _ (counting whatever) 0) as [Ha [Hp _]].
  destruct (bindMaybe_short_circuit _ (counting (divide 0%float)) 0) as [_ [Hq _]].
  split; [exact Ha | split].
  - rewrite (Hp 2%float); [reflexivity | discriminate].
  - rewrite (Hq 2%float); [reflexivity | discriminate].
Defined.

(** C7.  [divide(d)] maps a dividend [x] to the present quotient [x / d]
    when [d !== 0] and to absent when [d] is zero; the closure keeps the
    divisor it was built with across all of its calls. *)
Theorem divide_by (d : number) :
  (strictNotEqual d 0%float = true ->
   forall x : number,
     divide d x = Defined (x / d)%float
     /\ narrow (divide d x) = Some (x / d)%float)
  /\ (strictNotEqual d 0%float = false ->
      forall x : number, divide d x = Undefined)
  /\ (forall xs : list number,
         let step := divide d in
         map step xs
         = map (fun x => if strictNotEqual d 0%float
                         then Defined (x / d)%float else Undefined) xs).
Proof.
  unfold divide; split; [| split].
  - intros E x; rewrite E; split; reflexivity.
  - intros E x; rewrite E; reflexivity.
  - intros xs; reflexivity.
Qed.

Lemma divide_by_witness :
  divide 5%float 10%float = Defined 2%float
  /\ divide 0%float 10%float = Undefined
  /\ divide (- 0)%float 10%float = Undefined
  /\ divide 4%float 0%float = Defined 0%float.
Proof.
  split; [| split; [| split]].
  - apply (divide_by 5%float); reflexivity.
  - apply (divide_by 0%float); reflexivity.
  - apply (divide_by (- 0)%float); reflexivity.
  - apply (divide_by 4%float); reflexivity.
Defined.

(** C9.  With the divisor 0 the chain is absent, in its nested form [z]
    and in its [reduce] form [z2]; with the divisor 5 it is present
    holding 44. *)
Theorem z_evaluates :
  z = Undefined /\ z2 = Undefined
  /\ zBy 0%float = Undefined /\ zBy 5%float = Defined 44%float.
Proof. repeat split; reflexivity. Qed.

(** C1, as the code has it.  [returnMaybe] returns its argument unchanged,
    so for every value other than [undefined] itself (zero, NaN, the empty
    string, [false] and [null] included) the result is present and holds
    that value. *)
Theorem returnMaybe_present (T : Type) (U : Undefinable T) (v : T) :
  include v <> undefined ->
  returnMaybe v = include v
  /\ narrow (returnMaybe v) = Some v
  /\ returnMaybe v <> undefined.
Proof.
  intros Hv; unfold returnMaybe; repeat split; [apply narrow_include |]; exact Hv.
Qed.

Lemma returnMaybe_present_witness :
  (returnMaybe 0%float = Defined 0%float
   /\ narrow (returnMaybe 0%float) = Some 0%float
   /\ returnMaybe 0%float <> Undefined)
  /\ (returnMaybe (JsNumber 0%float) = JsNumber 0%float
      /\ narrow (returnMaybe (JsNumber 0%float)) = Some (JsNumber 0%float)
      /\ returnMaybe (JsNumber 0%float) <> JsUndefined)
  /\ (returnMaybe JsNull = JsNull
      /\ narrow (returnMaybe JsNull) = Some JsNull
      /\ returnMaybe JsNull <> JsUndefined).
Proof.
  split; [| split].
  - apply (@returnMaybe_present float Undefinable_number 0%float); discriminate.
  - apply (@returnMaybe_present JsValue Undefinable_unknown (JsNumber 0%float));
      discriminate.
  - apply (@returnMaybe_present JsValue Undefinable_unknown JsNull); discriminate.
Defined.

(** C1, as stated, fails: the generic [returnMaybe] accepts [undefined]
    (at [T = unknown], or at [T = number | undefined]) and returns it, and
    that result is the absent container: [bindMaybe] does not call its
    step on it. *)
Lemma returnMaybe_undefined_is_absent :
  returnMaybe JsUndefined = (undefined : Maybe JsValue)
  /\ narrow (returnMaybe JsUndefined) = None
  /\ @returnMaybe (Maybe float) (Undefinable_Maybe float) Undefined = Undefined
  /\ bindMaybe (returnMaybe JsUndefined) (counting (fun v => v)) 0
     = (JsUndefined, 0).
Proof. repeat split. Qed.

(** C2, as the code has it.  [returnMaybe] is the identity, so any number
    of applications gives [returnMaybe(v)]; [returnLogged] adds one
    [{ value, logs }] layer per application, so [n] applications give a
    container [n] layers deep, which is [returnLogged(v)] only for
    [n = 1]. *)
Theorem lift_repeated (n : nat) :
  (forall v : JsValue,
      Nat.iter n (returnMaybe : JsValue -> JsValue) v = returnMaybe v)
  /\ (forall (T : Type) (U : Undefinable T) (m : Maybe T),
         Nat.iter n (@returnMaybe (Maybe T) (Undefinable_Maybe T) : Maybe T -> Maybe T) m
         = m)
  /\ (forall v : JsValue,
         layers (Nat.iter n returnLoggedValue v) = n + layers v)
  /\ (forall v : JsValue,
         Nat.iter n returnLoggedValue v = returnLoggedValue v <-> n = 1)
  /\ (forall (T : Type) (v : T),
         value (returnLogged (returnLogged v)) = returnLogged v
         /\ value (value (returnLogged (returnLogged v))) = v).
Proof.
  assert (L : forall v, layers (Nat.iter n returnLoggedValue v) = n + layers v).
  { intros v; induction n as [| k IH]; simpl; [| rewrite IH]; reflexivity. }
  split; [| split; [| split; [| split]]].
  - intros v; clear L; induction n as [| k IH]; [reflexivity | simpl; exact IH].
  - intros T U m; clear L; induction n as [| k IH]; [reflexivity | simpl; exact IH].
  - exact L.
  - intros v; split.
    + intros E; apply (f_equal layers) in E; rewrite L in E; simpl in E; lia.
    + intros ->; reflexivity.
  - intros T v; split; reflexivity.
Qed.

(** C2, as stated, fails for [returnLogged]: applied twice to 5 it gives
    a container whose value is itself a container, two layers deep, not
    [returnLogged(5)]. *)
Lemma returnLogged_twice_wraps_twice :
  Nat.iter 2 returnLoggedValue (JsNumber 5%float)
  <> returnLoggedValue (JsNumber 5%float)
  /\ Nat.iter 2 returnLoggedValue (JsNumber 5%float)
     = JsObject {| value := JsObject {| value := JsNumber 5%float; logs := [] |};
                   logs := [] |}
  /\ layers (Nat.iter 2 returnLoggedValue (JsNumber 5%float)) = 2.
Proof.
  split; [| split; reflexivity].
  intros E; apply (f_equal layers) in E; discriminate E.
Qed.

(** C3.  Folding the chain operation over a list of steps from [lift(v)]
    is the nested manual application of the same steps: same result and
    same effects, for [bindLogged] and for [bindMaybe]; in particular
    [y2] is [y] and [z2] is [z]. *)
Theorem reduce_is_nesting :
  (forall (W T : Type) (steps : list (T -> Js W (Logged T))) (v : T) (w : W),
      reduce steps (fun loggedX fn => bindLogged loggedX fn) (returnLogged v) w
      = nested (fun wrapped fn => bindLogged wrapped fn) steps (returnLogged v) w)
  /\ (forall (W T : Type) (U : Undefinable T)
             (steps : list (T -> Js W (Maybe T))) (v : T) (w : W),
         reduce steps (fun maybeX fn => bindMaybe maybeX fn) (returnMaybe v) w
         = nested (fun wrapped fn => bindMaybe wrapped fn) steps (returnMaybe v) w)
  /\ (forall shortest : number -> string,
         y2 shortest = y shortest
         /\ y shortest
            = run (nested (fun wrapped fn => bindLogged wrapped fn)
                     [arrow (square shortest); arrow (double shortest)]
                     (returnLogged 5%float)))
  /\ z2 = z
  /\ z = run (nested (fun wrapped fn => bindMaybe wrapped fn)
                [arrow (divide 0%float); arrow whatever] (returnMaybe 10%float)).
Proof.
  split; [| split; [| split; [| split]]].
  - intros; apply reduce_nested.
  - intros; apply reduce_nested.
  - intros; split; reflexivity.
  - reflexivity.
  - reflexivity.
Qed.

(** C4.  Absence is absorbing.  When the step at some position is called
    and yields absent, the whole chain, folded or nested, is absent and
    the world is the one that step left: no later step runs.  Folding
    from the absent container gives absent and runs no step at all. *)
Theorem absence_absorbing (W T : Type) (U : Undefinable T)
    (before after : list (T -> Js W (Maybe T))) (step : T -> Js W (Maybe T))
    (v x : T) (m : Maybe T) (w wk wk' : W) :
  reduce before (fun maybeX fn => bindMaybe maybeX fn) (returnMaybe v) w
  = (m, wk) ->
  narrow m = Some x ->
  step x wk = (undefined, wk') ->
  reduce (before ++ step :: after) (fun maybeX fn => bindMaybe maybeX fn)
    (returnMaybe v) w = (undefined, wk')
  /\ nested (fun wrapped fn => bindMaybe wrapped fn) (before ++ step :: after)
       (returnMaybe v) w = (undefined, wk')
  /\ (forall w0 : W,
         reduce after (fun maybeX fn => bindMaybe maybeX fn) undefined w0
         = (undefined, w0)).
Proof.
  intros Hbefore Hm Hstep.
  assert (R : reduce (before ++ step :: after)
                (fun maybeX fn => bindMaybe maybeX fn) (returnMaybe v) w
              = (undefined, wk')).
  { rewrite reduce_app; unfold bind at 1; rewrite Hbefore; simpl.
    unfold bind; rewrite (bindMaybe_narrowed m step wk Hm), Hstep.
    apply reduce_bindMaybe_undefined. }
  split; [exact R | split].
  - rewrite <- reduce_nested; exact R.
  - intros w0; apply reduce_bindMaybe_undefined.
Qed.

Lemma absence_absorbing_witness :
  reduce ([counting whatever] ++ counting (divide 0%float)
            :: [counting whatever; counting whatever])
    (fun maybeX fn => bindMaybe maybeX fn) (returnMaybe 10%float) 0
  = (Undefined, 2)
  /\ nested (fun wrapped fn => bindMaybe wrapped fn)
       ([counting whatever] ++ counting (divide 0%float)
          :: [counting whatever; counting whatever])
       (returnMaybe 10%float) 0
     = (Undefined, 2)
  /\ (forall w0 : nat,
         reduce [counting whatever; counting whatever]
           (fun maybeX fn => bindMaybe maybeX fn) undefined w0
         = (Undefined, w0)).
Proof.
  apply (@absence_absorbing nat float Undefinable_number
           [counting whatever] [counting whatever; counting whatever]
           (counting (divide 0%float)) 10%float 52%float (Defined 52%float)
           0 1 2); reflexivity.
Defined.

(** * Further properties of the two combinators *)

(** ** Monad laws *)

(** X1.  Right identity for Logged: binding [returnLogged] itself as the
    step gives the container back, logs included, and has no effect. *)
Theorem bindLogged_right_identity (W T : Type) (c : Logged T) (w : W) :
  bindLogged c (arrow returnLogged) w = (c, w).
Proof.
  unfold bindLogged, arrow, bind, ret; simpl.
  rewrite app_nil_r, Logged_eta; reflexivity.
Qed.


(** X3.  Right identity for Maybe: binding [returnMaybe] itself as the
    step gives the container back, present or absent, whatever the payload
    type. *)
Theorem bindMaybe_right_identity (W T : Type) (U : Undefinable T)
    (m : Maybe T) (w : W) :
  bindMaybe m (arrow returnMaybe) w = (m, w).
Proof.
  unfold bindMaybe, arrow, returnMaybe, ret.
  destruct (narrow m) as [v |] eqn:E.
  - rewrite (narrow_Some _ E); reflexivity.
  - rewrite (narrow_None _ E); reflexivity.
Qed.

(** X4.  Associativity for Maybe: binding [f] and then [g] is binding the
    step that runs [f] and binds [g] to its result, on present and on
    absent containers alike. *)
Theorem bindMaybe_assoc (W T : Type) (U : Undefinable T) (m : Maybe T)
    (f g : T -> Js W (Maybe T)) (w : W) :
  (m' <- bindMaybe m f ;; bindMaybe m' g) w
  = bindMaybe m (fun x => m' <- f x ;; bindMaybe m' g) w.
Proof.
  unfold bindMaybe at 1 3; unfold bind at 1.
  destruct (narrow m) as [v |]; [reflexivity |].
  unfold ret at 1 2; apply bindMaybe_undefined.
Qed.

(** ** Chains of Logged steps *)

Lemma reduce_bindLogged_history (W T : Type)
    (steps : list (T -> Js W (Logged T))) :
  forall (c : Logged T) (w : W),
    reduce steps (fun loggedX fn => bindLogged loggedX fn) c w
    = ({| value :=
            value (fst (reduce steps (fun loggedX fn => bindLogged loggedX fn)
                          (returnLogged (value c)) w));
          logs :=
            logs c
            ++ logs (fst (reduce steps (fun loggedX fn => bindLogged loggedX fn)
                            (returnLogged (value c)) w)) |},
       snd (reduce steps (fun loggedX fn => bindLogged loggedX fn)
              (returnLogged (value c)) w)).
Proof.
  induction steps as [| fn rest IH]; intros c w; simpl.
  - unfold ret; simpl; rewrite app_nil_r, Logged_eta; reflexivity.
  - unfold bind; rewrite !bindLogged_run; simpl.
    destruct (fn (value c) w) as [next w1]; simpl.
    rewrite (IH {| value := value next; logs := logs c ++ logs next |}).
    rewrite (IH {| value := value next; logs := logs next |}); simpl.
    rewrite app_assoc; reflexivity.
Qed.

(** X5.  The log is append-only and does not influence the computation: a
    chain started from a container [c] yields the value and the effects of
    the same chain started from [returnLogged(c.value)], and its logs are
    [c.logs] followed by the logs of that chain. *)
Theorem chain_keeps_history (W T : Type)
    (steps : list (T -> Js W (Logged T))) (c : Logged T) (w : W) :
  reduce steps (fun loggedX fn => bindLogged loggedX fn) c w
  = ({| value :=
          value (fst (reduce steps (fun loggedX fn => bindLogged loggedX fn)
                        (returnLogged (value c)) w));
        logs :=
          logs c
          ++ logs (fst (reduce steps (fun loggedX fn => bindLogged loggedX fn)
                          (returnLogged (value c)) w)) |},
     snd (reduce steps (fun loggedX fn => bindLogged loggedX fn)
            (returnLogged (value c)) w)).
Proof. apply reduce_bindLogged_history. Qed.

(** X6.  Chains compose: running the steps [first ++ second] from
    [returnLogged(v)] gives the value of running [second] on the value
    [first] produced, with the logs of [first] followed by the logs of
    [second]. *)
Theorem chain_app (W T : Type) (first second : list (T -> Js W (Logged T)))
    (v : T) (r1 r2 : Logged T) (w w1 w2 : W) :
  reduce first (fun loggedX fn => bindLogged loggedX fn) (returnLogged v) w
  = (r1, w1) ->
  reduce second (fun loggedX fn => bindLogged loggedX fn)
    (returnLogged (value r1)) w1 = (r2, w2) ->
  reduce (first ++ second) (fun loggedX fn => bindLogged loggedX fn)
    (returnLogged v) w
  = ({| value := value r2; logs := logs r1 ++ logs r2 |}, w2).
Proof.
  intros H1 H2.
  rewrite reduce_app; unfold bind; rewrite H1.
  rewrite reduce_bindLogged_history, H2; reflexivity.
Qed.

Lemma chain_app_witness :
  reduce ([counting (square (fun _ => EmptyString))]
          ++ [counting (double (fun _ => EmptyString))])
    (fun loggedX fn => bindLogged loggedX fn) (returnLogged 3%float) 0
  = ({| value := 18%float;
        logs := ["squared 3"%string] ++ ["doubled 9"%string] |}, 2).
Proof.
  apply (@chain_app nat float
           [counting (square (fun _ => EmptyString))]
           [counting (double (fun _ => EmptyString))]
           3%float
           {| value := 9%float; logs := ["squared 3"%string] |}
           {| value := 18%float; logs := ["doubled 9"%string] |}
           0 1 2); reflexivity.
Defined.

Lemma reduce_bindLogged_counting (T : Type) (fs : list (T -> Logged T)) :
  forall (c : Logged T) (n : nat),
    snd (reduce (map counting fs) (fun loggedX fn => bindLogged loggedX fn) c n)
    = List.length fs + n.
Proof.
  induction fs as [| f rest IH]; intros c n; simpl.
  - reflexivity.
  - unfold bind; rewrite bindLogged_run; unfold counting at 2 3; simpl.
    rewrite IH; lia.
Qed.

(** X7.  A Logged chain never skips a step: with invocation-counting
    stand-ins, a chain of [n] steps makes exactly [n] calls, whatever the
    steps return. *)
Theorem chain_calls_every_step (T : Type) (fs : list (T -> Logged T))
    (c : Logged T) (n : nat) :
  snd (reduce (map counting fs) (fun loggedX fn => bindLogged loggedX fn) c n)
  = List.length fs + n.
Proof. apply reduce_bindLogged_counting. Qed.

(** X8.  When every step logs exactly one entry, as [square] and [double]
    do, the log grows by one entry per step: after the chain it has the
    entries it started with plus as many as there are steps. *)
Theorem chain_log_length (W T : Type) (steps : list (T -> Js W (Logged T))) :
  Forall (fun fn => forall x w, List.length (logs (fst (fn x w))) = 1) steps ->
  forall (c : Logged T) (w : W),
    List.length
      (logs (fst (reduce steps (fun loggedX fn => bindLogged loggedX fn) c w)))
    = List.length (logs c) + List.length steps.
Proof.
  induction 1 as [| fn rest Hfn _ IH]; intros c w; simpl.
  - lia.
  - unfold bind; rewrite bindLogged_run, IH; simpl.
    rewrite length_app, Hfn; lia.
Qed.

Lemma chain_log_length_witness :
  List.length
    (logs (fst (reduce [arrow (square (fun _ => EmptyString));
                        arrow (double (fun _ => EmptyString));
                        arrow (square (fun _ => EmptyString))]
                  (fun loggedX fn => bindLogged loggedX fn)
                  (returnLogged 5%float) tt)))
  = List.length (logs (returnLogged 5%float)) + 3.
Proof.
  apply (@chain_log_length unit float
           [arrow (square (fun _ => EmptyString));
            arrow (double (fun _ => EmptyString));
            arrow (square (fun _ => EmptyString))]).
  repeat constructor.
Defined.

(** X9.  Logging does not change what is computed: the value of a chain of
    side-effect-free steps is the plain left-to-right composition of the
    steps' value parts, and the chain has no effect. *)
Theorem chain_value_is_composition (W T : Type) (fs : list (T -> Logged T)) :
  forall (c : Logged T) (w : W),
    value (fst (reduce (map arrow fs) (fun loggedX fn => bindLogged loggedX fn)
                  c w))
    = fold_left (fun x f => value (f x)) fs (value c)
    /\ snd (reduce (map arrow fs) (fun loggedX fn => bindLogged loggedX fn) c w)
       = w.
Proof.
  induction fs as [| f rest IH]; intros c w; simpl.
  - split; reflexivity.
  - unfold bind; rewrite bindLogged_run; unfold arrow at 3 4 5, ret; simpl.
    apply (IH {| value := value (f (value c));
                 logs := logs c ++ logs (f (value c)) |} w).
Qed.

(** X13.  The sample chain on any number [x]: squaring and then doubling
    gives [(x * x) * 2], and the second log entry shows the squared
    number, the input of [double]; the [reduce] form and the nested form
    agree. *)
Theorem square_then_double (shortest : number -> string) (x : number) :
  run (reduce [arrow (square shortest); arrow (double shortest)]
         (fun loggedX fn => bindLogged loggedX fn) (returnLogged x))
  = {| value := (x * x * 2)%float;
       logs := [("squared " ++ toString shortest x)%string;
                ("doubled " ++ toString shortest (x * x)%float)%string] |}
  /\ run (wrapped <- bindLogged (returnLogged x) (arrow (square shortest)) ;;
          bindLogged wrapped (arrow (double shortest)))
     = {| value := (x * x * 2)%float;
          logs := [("squared " ++ toString shortest x)%string;
                   ("doubled " ++ toString shortest (x * x)%float)%string] |}.
Proof. split; reflexivity. Qed.

(** ** Chains of Maybe steps *)

Section MaybeChains.

Variable W : Type.
Variable T : Type.
Context {U : Undefinable T}.

Lemma narrow_Some_defined (m : Maybe T) (v : T) :
  narrow m = Some v -> include v <> undefined.
Proof.
  intros E Hu; rewrite (narrow_Some _ E), Hu, narrow_undefined in E.
  discriminate E.
Qed.

Lemma bindMaybe_agree (f f' : T -> Js W (Maybe T)) (m : Maybe T) (w : W) :
  (forall v w', include v <> undefined -> f v w' = f' v w') ->
  bindMaybe m f w = bindMaybe m f' w.
Proof.
  intros H; unfold bindMaybe; destruct (narrow m) as [v |] eqn:E.
  - apply H; eapply narrow_Some_defined; exact E.
  - reflexivity.
Qed.

End MaybeChains.

(** X10.  Steps only ever see defined input: a Maybe chain depends on its
    steps only through what they do on values other than [undefined], so
    two lists of steps that agree on those values give the same result and
    the same effects from any starting container. *)
Theorem chain_steps_see_defined_only (W T : Type) (U : Undefinable T)
    (steps steps' : list (T -> Js W (Maybe T))) :
  Forall2 (fun f f' => forall v w', include v <> undefined -> f v w' = f' v w')
    steps steps' ->
  forall (init : Maybe T) (w : W),
    reduce steps (fun maybeX fn => bindMaybe maybeX fn) init w
    = reduce steps' (fun maybeX fn => bindMaybe maybeX fn) init w.
Proof.
  induction 1 as [| f f' rest rest' Hf _ IH]; intros init w; simpl.
  - reflexivity.
  - apply bind_ext; [apply bindMaybe_agree, Hf | exact IH].
Qed.

Lemma chain_steps_see_defined_only_witness :
  reduce [counting (fun v : JsValue => v)]
    (fun maybeX fn => bindMaybe maybeX fn) JsUndefined 0
  = reduce [counting (fun v : JsValue => if isUndefined v then JsNull else v)]
      (fun maybeX fn => bindMaybe maybeX fn) JsUndefined 0
  /\ reduce [counting (fun v : JsValue => v)]
       (fun maybeX fn => bindMaybe maybeX fn) (JsBoolean false) 0
     = reduce [counting (fun v : JsValue => if isUndefined v then JsNull else v)]
         (fun maybeX fn => bindMaybe maybeX fn) (JsBoolean false) 0.
Proof.
  assert (A : Forall2
                (fun f f' : JsValue -> Js nat (Maybe JsValue) =>
                   forall v w', include v <> undefined -> f v w' = f' v w')
                [counting (fun v : JsValue => v)]
                [counting (fun v : JsValue =>
                             if isUndefined v then JsNull else v)]).
  { repeat constructor.
    intros v w' Hv; destruct v; try reflexivity.
    contradiction Hv; reflexivity. }
  split; apply (@chain_steps_see_defined_only _ _ _ _ _ A).
Defined.

Lemma reduce_bindMaybe_counting (T : Type) (U : Undefinable T)
    (fs : list (T -> Maybe T)) :
  forall (m : Maybe T) (n : nat),
    n <= snd (reduce (map counting fs) (fun maybeX fn => bindMaybe maybeX fn) m n)
        <= List.length fs + n
    /\ (fst (reduce (map counting fs) (fun maybeX fn => bindMaybe maybeX fn) m n)
        <> undefined ->
        snd (reduce (map counting fs) (fun maybeX fn => bindMaybe maybeX fn) m n)
        = List.length fs + n).
Proof.
  induction fs as [| f rest IH]; intros m n; simpl.
  - unfold ret; simpl; split; [lia | reflexivity].
  - unfold bind; destruct (narrow m) as [v |] eqn:E.
    + rewrite (bindMaybe_narrowed m (counting f) n E).
      change (counting f v n) with (f v, S n); cbv beta iota.
      destruct (IH (f v) (S n)) as [[Hlo Hhi] Hall].
      split; [lia | intros Hp; rewrite (Hall Hp); lia].
    + apply narrow_None in E; subst m.
      rewrite bindMaybe_undefined, reduce_bindMaybe_undefined; simpl.
      split; [lia | intros Hp; contradiction Hp; reflexivity].
Qed.

(** X11.  A Maybe chain calls each step at most once, and a present
    result means nothing was skipped: with invocation-counting stand-ins,
    a chain of [n] steps makes at most [n] calls, and exactly [n] when its
    result is not absent. *)
Theorem chain_present_ran_every_step (T : Type) (U : Undefinable T)
    (fs : list (T -> Maybe T)) (m : Maybe T) (n : nat) :
  n <= snd (reduce (map counting fs) (fun maybeX fn => bindMaybe maybeX fn) m n)
      <= List.length fs + n
  /\ (fst (reduce (map counting fs) (fun maybeX fn => bindMaybe maybeX fn) m n)
      <> undefined ->
      snd (reduce (map counting fs) (fun maybeX fn => bindMaybe maybeX fn) m n)
      = List.length fs + n).
Proof. apply reduce_bindMaybe_counting. Qed.

Lemma chain_present_ran_every_step_witness :
  (0 <= snd (reduce (map counting [divide 2%float; whatever])
               (fun maybeX fn => bindMaybe maybeX fn) (returnMaybe 10%float) 0)
      <= 2
   /\ snd (reduce (map counting [divide 2%float; whatever])
             (fun maybeX fn => bindMaybe maybeX fn) (returnMaybe 10%float) 0)
      = 2)
  /\ 0 <= snd (reduce (map counting [divide 0%float; whatever])
                 (fun maybeX fn => bindMaybe maybeX fn) (returnMaybe 10%float) 0)
       <= 2.
Proof.
  split.
  - destruct (@chain_present_ran_every_step float Undefinable_number
                [divide 2%float; whatever] (returnMaybe 10%float) 0)
      as [Hb Hall].
    split; [exact Hb | apply Hall; discriminate].
  - apply (@chain_present_ran_every_step float Undefinable_number
             [divide 0%float; whatever] (returnMaybe 10%float) 0).
Defined.

(** X12.  The sample chain on any divisor and dividend: dividing and then
    adding 42 is absent exactly when the divisor is zero (negative zero
    included) and otherwise present holding [x / d + 42]; the [reduce]
    form and the nested form agree. *)
Theorem divide_then_whatever (d x : number) :
  run (reduce [arrow (divide d); arrow whatever]
         (fun maybeX fn => bindMaybe maybeX fn) (returnMaybe x))
  = (if strictNotEqual d 0%float
     then Defined (x / d + 42)%float else Undefined)
  /\ run (wrapped <- bindMaybe (returnMaybe x) (arrow (divide d)) ;;
          bindMaybe wrapped (arrow whatever))
     = (if strictNotEqual d 0%float
        then Defined (x / d + 42)%float else Undefined)
  /\ zBy d
     = (if strictNotEqual d 0%float
        then Defined (10 / d + 42)%float else Undefined).
Proof.
  unfold zBy, run; cbn; unfold arrow, ret, divide; cbn.
  destruct (strictNotEqual d 0%float); repeat split; reflexivity.
Qed.

Lemma reduce_bindMaybe_total (W T : Type) (U : Undefinable T)
    (gs : list (T -> T)) :
  (forall v : T, include v <> undefined) ->
  forall (v : T) (w : W),
    reduce (map (fun g => arrow (fun x => returnMaybe (g x))) gs)
      (fun maybeX fn => bindMaybe maybeX fn) (returnMaybe v) w
    = (returnMaybe (fold_left (fun x g => g x) gs v), w).
Proof.
  intros Hdef; induction gs as [| g rest IH]; intros v w; simpl.
  - reflexivity.
  - unfold bind.
    rewrite (bindMaybe_narrowed (returnMaybe v) _ w (narrow_include v (Hdef v))).
    unfold arrow at 1, ret; apply IH.
Qed.

(** X14.  On a payload type without [undefined], steps that never signal
    absence, like [whatever], chain as plain function composition: the
    result is present, holds the composed value, and the chain has no
    effect of its own. *)
Theorem chain_of_total_steps (W T : Type) (U : Undefinable T)
    (gs : list (T -> T)) (v : T) (w : W) :
  (forall v' : T, include v' <> undefined) ->
  reduce (map (fun g => arrow (fun x => returnMaybe (g x))) gs)
    (fun maybeX fn => bindMaybe maybeX fn) (returnMaybe v) w
  = (returnMaybe (fold_left (fun x g => g x) gs v), w)
  /\ narrow (returnMaybe (fold_left (fun x g => g x) gs v))
     = Some (fold_left (fun x g => g x) gs v).
Proof.
  intros Hdef; split.
  - apply reduce_bindMaybe_total, Hdef.
  - apply narrow_include, Hdef.
Qed.

Lemma chain_of_total_steps_witness :
  reduce (map (fun g => arrow (fun x => returnMaybe (g x)))
            [fun x => (x + 42)%float; fun x => (x * 2)%float])
    (fun maybeX fn => bindMaybe maybeX fn) (returnMaybe 1%float) tt
  = (Defined 86%float, tt)
  /\ narrow (returnMaybe 86%float) = Some 86%float.
Proof.
  apply (@chain_of_total_steps unit float Undefinable_number
           [fun x => (x + 42)%float; fun x => (x * 2)%float] 1%float tt).
  discriminate.
Defined.
